(** * prepare_smbless.py: the helper-tool build orchestrator

    A shallow embedding of [src/prepare_smbless.py].  The script is a
    straight line of effects: it prints, creates a directory, shells out
    twice and prints again.  Effects are modelled by a state-and-exception
    monad over a [World] that holds the filesystem and the trace of
    everything the process has done so far. *)

From stdpp Require Import gmap list strings.
From Stdlib Require Import ZArith NArith Ascii Lia.

Local Open Scope Z_scope.

(** ** Python text *)

(** A Python [str] is a sequence of Unicode code points. *)
Abbreviation str := (list N).

(** A source literal made of ASCII characters only. *)
Fixpoint lit (s : string) : str :=
  match s with
  | EmptyString => []
  | String a s' => N_of_ascii a :: lit s'
  end.

(** The escape [\n] and the double quote, which the literals of the
    script contain. *)
Definition nl : str := [10%N].
Definition dq : str := [34%N].

(** [str.strip()] without argument removes the characters for which
    CPython's [Py_UNICODE_ISSPACE] holds. *)
Definition isspace (c : N) : bool :=
  ((9 <=? c) && (c <=? 13) || (28 <=? c) && (c <=? 32)
   || (c =? 133) || (c =? 160) || (c =? 5760)
   || (8192 <=? c) && (c <=? 8202)
   || (c =? 8232) || (c =? 8233) || (c =? 8239) || (c =? 8287)
   || (c =? 12288))%N.

Fixpoint lstrip (s : str) : str :=
  match s with
  | [] => []
  | c :: s' => if isspace c then lstrip s' else s
  end.

Definition rstrip (s : str) : str := rev (lstrip (rev s)).

Definition strip (s : str) : str := rstrip (lstrip s).

(** What "leading and trailing whitespace stripped" means, in the words of
    the specification: [t] is [s] without a whitespace-only prefix and a
    whitespace-only suffix, and [t] neither starts nor ends with
    whitespace. *)
Definition stripped_of (s t : str) : Prop :=
  ∃ l r, s = l ++ t ++ r
         ∧ Forall (λ c, isspace c = true) l
         ∧ Forall (λ c, isspace c = true) r
         ∧ (∀ c, head t = Some c → isspace c = false)
         ∧ (∀ c, last t = Some c → isspace c = false).


(** ** Configuration *)

Definition HELPER_ID : str := lit "com.lowdata.helper".
Definition APP_ID : str := lit "com.tonalphoto.tech.LowData".
Definition TEAM_ID : str := lit "85QL287QYW".
Definition HELPER_SOURCE : str := lit "LowDataHelper/main.swift".
Definition BUILD_DIR : str := lit "build".

(** ** The world the script runs in *)

Inductive node := Dir | File.

(** The filesystem as seen from the working directory: what each relative
    path names, and whether the kernel lets the process create entries
    there. *)
Record FS := mkFS {
  nodes : gmap str node;
  cwd_writable : bool
}.

Inductive errno := EEXIST | EACCES.

(** [subprocess.CompletedProcess], with both streams captured as text. *)
Record CompletedProcess := mkCompleted {
  returncode : Z;
  stdout : str;
  stderr : str
}.

Global Instance CompletedProcess_eq_dec : EqDecision CompletedProcess.
Proof. solve_decision. Defined.

Inductive Stream := sys_stdout | sys_stderr.

Global Instance Stream_eq_dec : EqDecision Stream.
Proof. solve_decision. Defined.

(** Everything observable the process does, in order. *)
Inductive Event :=
| EvWrite (file : Stream) (text : str)
| EvMakedirs (name : str) (exist_ok : bool)
| EvRun (cmd : str) (result : CompletedProcess).

Global Instance Event_eq_dec : EqDecision Event.
Proof. solve_decision. Defined.

Record World := mkWorld {
  argv : list str;
  fs : FS;
  trace : list Event
}.

(** What [/bin/sh -c cmd] does: the completed process it yields and the
    filesystem it leaves behind.  It belongs to the environment, and every
    statement below is for an arbitrary one. *)
Definition Shell := str → FS → CompletedProcess * FS.

Inductive exn :=
| SystemExit (code : Z)
| OSError (e : errno).

Inductive Result (A : Type) :=
| Ok (a : A)
| Raise (e : exn).
Arguments Ok {A} a.
Arguments Raise {A} e.

(** A statement: it runs in a world, and either completes with a value or
    raises, leaving a world behind either way. *)
Definition M (A : Type) : Type := World → Result A * World.

Global Instance M_ret : MRet M := λ A a w, (Ok a, w).

Global Instance M_bind : MBind M := λ A B f m w,
  match m w with
  | (Ok a, w') => f a w'
  | (Raise e, w') => (Raise e, w')
  end.

Definition emit (e : Event) (w : World) : World :=
  {| argv := argv w; fs := fs w; trace := trace w ++ [e] |}.

(** [print(s, file=f)]: the text and the line end go to the stream. *)
Definition print_to (file : Stream) (s : str) : M unit :=
  λ w, (Ok (), emit (EvWrite file (s ++ nl)) w).

(** [print(s)]: [file] defaults to [sys.stdout]. *)
Definition print (s : str) : M unit := print_to sys_stdout s.

(** [exit(code)] raises [SystemExit]. *)
Definition exit {A} (code : Z) : M A :=
  λ w, (Raise (SystemExit code), w).

(** The [mkdir] system call on a path of one component. *)
Definition mkdir (name : str) (f : FS) : errno + FS :=
  match nodes f !! name with
  | Some _ => inl EEXIST
  | None =>
      if cwd_writable f
      then inr {| nodes := <[name := Dir]> (nodes f);
                  cwd_writable := cwd_writable f |}
      else inl EACCES
  end.

Definition isdir (name : str) (f : FS) : bool :=
  match nodes f !! name with
  | Some Dir => true
  | _ => false
  end.

(** [os.makedirs(name, exist_ok=...)] on a path of one component, where it
    has no parent to create first: [mkdir], and an [OSError] is swallowed
    when [exist_ok] is set and the path is a directory. *)
Definition makedirs (name : str) (exist_ok : bool) (f : FS) : errno + FS :=
  match mkdir name f with
  | inr f' => inr f'
  | inl e => if negb exist_ok || negb (isdir name f) then inl e else inr f
  end.

Definition os_makedirs (name : str) (exist_ok : bool) : M unit :=
  λ w,
    let w' := emit (EvMakedirs name exist_ok) w in
    match makedirs name exist_ok (fs w) with
    | inr f' => (Ok (), {| argv := argv w'; fs := f'; trace := trace w' |})
    | inl e => (Raise (OSError e), w')
    end.

(** ** The script *)

Section Script.

Variable sh : Shell.

(** [subprocess.run(cmd, shell=True, capture_output=True, text=True)]:
    the child's two streams are pipes read by the parent, so they reach
    the process as fields of the result and not on its own streams. *)
Definition subprocess_run (cmd : str) : M CompletedProcess :=
  λ w,
    let '(result, f') := sh cmd (fs w) in
    (Ok result,
     {| argv := argv w; fs := f'; trace := trace w ++ [EvRun cmd result] |}).

Definition run_command (cmd : str) : M str :=
  result ← subprocess_run cmd;
  (if bool_decide (returncode result ≠ 0)
   then print (lit "Error: " ++ stderr result);; exit 1
   else mret ());;
  mret (strip (stdout result)).

Definition compile_cmd : str :=
  lit "swiftc " ++ HELPER_SOURCE ++ lit " -o " ++ BUILD_DIR ++ lit "/"
  ++ HELPER_ID ++ lit " -O".

Definition sign_cmd : str :=
  lit "codesign --force --sign " ++ dq
  ++ lit "Developer ID Application: Konrad Michels (" ++ TEAM_ID ++ lit ")"
  ++ dq ++ lit " "
  ++ lit "--identifier " ++ HELPER_ID ++ lit " --options runtime "
  ++ BUILD_DIR ++ lit "/" ++ HELPER_ID.

Definition main : M unit :=
  print (lit "Preparing helper tool for SMJobBless...");;
  os_makedirs BUILD_DIR true;;
  print (lit "Building helper tool...");;
  run_command compile_cmd;;
  print (lit "Signing helper...");;
  run_command sign_cmd;;
  let helper_path := BUILD_DIR ++ lit "/" ++ HELPER_ID in
  print (nl ++ lit "Helper tool prepared successfully!");;
  print (lit "Helper location: " ++ helper_path);;
  print (nl ++ lit "Next steps:");;
  print (lit "1. In Xcode, add a 'Copy Files' build phase");;
  print (lit "2. Set destination to 'Wrapper' with subpath 'Contents/Library/LaunchServices'");;
  print (lit "3. Add " ++ helper_path ++ lit " to this build phase");;
  print (lit "4. Build and run the app");;
  print (nl ++ lit "The app will use SMJobBless to install the helper to /Library/PrivilegedHelperTools/").

(** A fresh process: nothing has happened yet. *)
Definition start (args : list str) (f : FS) : World :=
  {| argv := args; fs := f; trace := [] |}.

(** [if __name__ == "__main__": main()] *)
Definition script (args : list str) (f : FS) : Result unit * World :=
  main (start args f).

End Script.

(** The status the interpreter ends the process with. *)
Definition exit_status (r : Result unit) : Z :=
  match r with
  | Ok _ => 0
  | Raise (SystemExit code) => code
  | Raise (OSError _) => 1
  end.

(** ** Observations on a trace *)


(** The external invocations: everything that is not a write of the
    process to its own streams. *)
Definition is_external (e : Event) : bool :=
  match e with
  | EvWrite _ _ => false
  | _ => true
  end.

Definition externals (tr : list Event) : list Event :=
  List.filter is_external tr.

(** The results of the subprocesses the run has waited for, in order. *)
Definition results (tr : list Event) : list CompletedProcess :=
  omap (λ e, match e with EvRun _ r => Some r | _ => None end) tr.

(** Where the compile step writes the binary and the sign step finds it. *)
Definition output_path : str := BUILD_DIR ++ lit "/" ++ HELPER_ID.

(** One [print] to standard output. *)
Definition say (s : str) : Event := EvWrite sys_stdout (s ++ nl).

(** The diagnostic of [run_command]. *)
Definition diagnostic (r : CompletedProcess) : Event :=
  say (lit "Error: " ++ stderr r).

(** The lines of the success report, as [main] prints them. *)
Definition success_report : list str :=
  let helper_path := BUILD_DIR ++ lit "/" ++ HELPER_ID in
  [ nl ++ lit "Helper tool prepared successfully!";
    lit "Helper location: " ++ helper_path;
    nl ++ lit "Next steps:";
    lit "1. In Xcode, add a 'Copy Files' build phase";
    lit "2. Set destination to 'Wrapper' with subpath 'Contents/Library/LaunchServices'";
    lit "3. Add " ++ helper_path ++ lit " to this build phase";
    lit "4. Build and run the app";
    nl ++ lit "The app will use SMJobBless to install the helper to /Library/PrivilegedHelperTools/" ].

(** ** The four ways a run can go *)

Definition preparing : Event := say (lit "Preparing helper tool for SMJobBless...").
Definition building : Event := say (lit "Building helper tool...").
Definition signing : Event := say (lit "Signing helper...").
Definition ensure_dir : Event := EvMakedirs BUILD_DIR true.

Inductive Outcome (sh : Shell) (args : list str) (f0 : FS)
  : Result unit * World → Prop :=
| makedirs_raised e :
    makedirs BUILD_DIR true f0 = inl e →
    Outcome sh args f0
      (Raise (OSError e), mkWorld args f0 [preparing; ensure_dir])
| compile_failed f1 r1 f2 :
    makedirs BUILD_DIR true f0 = inr f1 →
    sh compile_cmd f1 = (r1, f2) →
    returncode r1 ≠ 0 →
    Outcome sh args f0
      (Raise (SystemExit 1),
       mkWorld args f2
         [preparing; ensure_dir; building; EvRun compile_cmd r1;
          diagnostic r1])
| sign_failed f1 r1 f2 r2 f3 :
    makedirs BUILD_DIR true f0 = inr f1 →
    sh compile_cmd f1 = (r1, f2) →
    returncode r1 = 0 →
    sh sign_cmd f2 = (r2, f3) →
    returncode r2 ≠ 0 →
    Outcome sh args f0
      (Raise (SystemExit 1),
       mkWorld args f3
         [preparing; ensure_dir; building; EvRun compile_cmd r1;
          signing; EvRun sign_cmd r2; diagnostic r2])
| succeeded f1 r1 f2 r2 f3 :
    makedirs BUILD_DIR true f0 = inr f1 →
    sh compile_cmd f1 = (r1, f2) →
    returncode r1 = 0 →
    sh sign_cmd f2 = (r2, f3) →
    returncode r2 = 0 →
    Outcome sh args f0
      (Ok (),
       mkWorld args f3
         ([preparing; ensure_dir; building; EvRun compile_cmd r1;
           signing; EvRun sign_cmd r2] ++ (say <$> success_report))).

(** ** Statements about runs *)




(** ** An environment to run the script in *)

(** A concrete environment: a compiler that exits with [rc1] and writes
    the binary when that is zero, and a signer that exits with [rc2]. *)
Module Demo.

Definition toolchain (rc1 rc2 : Z) : Shell := λ cmd f,
  if decide (cmd = compile_cmd)
  then (mkCompleted rc1 (lit " compiled" ++ nl) (lit "error: no such file"),
        if decide (rc1 = 0)
        then mkFS (<[output_path := File]> (nodes f)) (cwd_writable f)
        else f)
  else (mkCompleted rc2 [] (lit "error: no identity found"), f).


Definition empty_dir : FS := mkFS ∅ true.


Definition with_build_dir : FS := mkFS {[ BUILD_DIR := Dir ]} true.

Definition build_is_a_file : FS := mkFS {[ BUILD_DIR := File ]} true.

End Demo.

(** ** Basic facts *)

Lemma bind_Ok {A B} (m : M A) (k : A → M B) w a w' :
  m w = (Ok a, w') → (m ≫= k) w = k a w'.
Proof. intros H. unfold mbind, M_bind. now rewrite H. Qed.

Lemma bind_Raise {A B} (m : M A) (k : A → M B) w e w' :
  m w = (Raise e, w') → (m ≫= k) w = (Raise e, w').
Proof. intros H. unfold mbind, M_bind. now rewrite H. Qed.

Lemma print_run s w : print s w = (Ok (), emit (say s) w).
Proof. reflexivity. Qed.

Lemma run_command_ok sh cmd w r f' :
  sh cmd (fs w) = (r, f') → returncode r = 0 →
  run_command sh cmd w
  = (Ok (strip (stdout r)),
     mkWorld (argv w) f' (trace w ++ [EvRun cmd r])).
Proof.
  intros Hsh Hrc. unfold run_command.
  erewrite bind_Ok; last by (unfold subprocess_run; rewrite Hsh).
  rewrite bool_decide_eq_false_2; last by (intros Hne; apply Hne, Hrc).
  reflexivity.
Qed.

Lemma run_command_fail sh cmd w r f' :
  sh cmd (fs w) = (r, f') → returncode r ≠ 0 →
  run_command sh cmd w
  = (Raise (SystemExit 1),
     mkWorld (argv w) f' (trace w ++ [EvRun cmd r; diagnostic r])).
Proof.
  intros Hsh Hrc. unfold run_command.
  erewrite bind_Ok; last by (unfold subprocess_run; rewrite Hsh).
  rewrite bool_decide_eq_true_2; last done.
  unfold mbind, M_bind, print, print_to, exit, emit, diagnostic, say. simpl.
  by rewrite <- app_assoc.
Qed.

Lemma os_makedirs_ok name ok w f' :
  makedirs name ok (fs w) = inr f' →
  os_makedirs name ok w
  = (Ok (), mkWorld (argv w) f' (trace w ++ [EvMakedirs name ok])).
Proof. intros H. unfold os_makedirs. now rewrite H. Qed.

Lemma os_makedirs_raise name ok w e :
  makedirs name ok (fs w) = inl e →
  os_makedirs name ok w
  = (Raise (OSError e), emit (EvMakedirs name ok) w).
Proof. intros H. unfold os_makedirs. now rewrite H. Qed.

(** Every run of the script is one of the four. *)
Lemma script_outcome sh args f0 : Outcome sh args f0 (script sh args f0).
Proof.
  unfold script, main.
  erewrite bind_Ok; last by apply print_run.
  destruct (makedirs BUILD_DIR true f0) as [e|f1] eqn:Hmk.
  { erewrite bind_Raise; last by apply os_makedirs_raise.
    by apply makedirs_raised. }
  erewrite bind_Ok; last by apply os_makedirs_ok.
  erewrite bind_Ok; last by apply print_run.
  destruct (sh compile_cmd f1) as [r1 f2] eqn:Hc.
  destruct (decide (returncode r1 = 0)) as [Hr1|Hr1]; last first.
  { erewrite bind_Raise; last by eapply run_command_fail.
    by eapply compile_failed. }
  erewrite bind_Ok; last by eapply run_command_ok.
  erewrite bind_Ok; last by apply print_run.
  destruct (sh sign_cmd f2) as [r2 f3] eqn:Hs.
  destruct (decide (returncode r2 = 0)) as [Hr2|Hr2]; last first.
  { erewrite bind_Raise; last by eapply run_command_fail.
    by eapply sign_failed. }
  erewrite bind_Ok; last by eapply run_command_ok.
  by eapply succeeded.
Qed.

(** ** [strip] removes exactly the surrounding whitespace *)

Lemma lstrip_split s :
  ∃ l, s = l ++ lstrip s ∧ Forall (λ c, isspace c = true) l.
Proof.
  induction s as [|c s [l [Hs Hl]]]; simpl.
  - by exists [].
  - destruct (isspace c) eqn:Hc.
    + exists (c :: l). split; [simpl; congruence | by constructor].
    + by exists [].
Qed.

Lemma lstrip_head s c : head (lstrip s) = Some c → isspace c = false.
Proof.
  induction s as [|a s IH]; simpl; [done|].
  destruct (isspace a) eqn:Ha; [done|].
  simpl. by intros [= <-].
Qed.

Lemma head_rev_last {A} (l : list A) : head (rev l) = last l.
Proof.
  induction l as [|a l IH] using rev_ind; [done|].
  by rewrite rev_app_distr, last_snoc.
Qed.

Lemma rstrip_split s :
  ∃ r, s = rstrip s ++ r ∧ Forall (λ c, isspace c = true) r.
Proof.
  unfold rstrip. destruct (lstrip_split (rev s)) as [l [Hs Hl]].
  exists (rev l). split.
  - rewrite <- rev_app_distr, <- Hs. by rewrite rev_involutive.
  - by apply Forall_rev.
Qed.

Lemma rstrip_last s c : last (rstrip s) = Some c → isspace c = false.
Proof.
  unfold rstrip. rewrite <- head_rev_last, rev_involutive.
  apply lstrip_head.
Qed.

Lemma strip_stripped s : stripped_of s (strip s).
Proof.
  unfold stripped_of, strip.
  destruct (lstrip_split s) as [l [Hs Hl]].
  destruct (rstrip_split (lstrip s)) as [r [Hu Hr]].
  exists l, r. repeat split; try done.
  - by rewrite <- Hu.
  - intros c Hc. apply (lstrip_head s). rewrite Hu.
    destruct (rstrip (lstrip s)); [done|exact Hc].
  - apply rstrip_last.
Qed.

Example strip_example :
  strip (lit "  build ok" ++ nl) = lit "build ok".
Proof. reflexivity. Qed.

Example strip_inner_kept :
  strip ([9; 160] ++ lit "a b" ++ [8232; 13; 10])%N = lit "a b".
Proof. reflexivity. Qed.

(** ** Reading a trace *)


Lemma run_not_in_report cmd r : EvRun cmd r ∉ say <$> success_report.
Proof. intros (s & Hs & _)%list_elem_of_fmap. discriminate Hs. Qed.

(** Splits a membership in an explicit trace into its cases and drops the
    impossible ones. *)
Ltac trace_cases H :=
  repeat first
    [ apply elem_of_app in H as [H|H]
    | apply elem_of_cons in H as [H|H]
    | by apply elem_of_nil in H
    | by apply run_not_in_report in H
    | discriminate H ].

Example demo_success_status :
  exit_status (script (Demo.toolchain 0 0) [] Demo.empty_dir).1 = 0.
Proof. vm_compute. reflexivity. Qed.

Example demo_compile_failure :
  externals (trace (script (Demo.toolchain 1 0) [] Demo.empty_dir).2)
  = [ensure_dir;
     EvRun compile_cmd
       (mkCompleted 1 (lit " compiled" ++ nl) (lit "error: no such file"))].
Proof. vm_compute. reflexivity. Qed.

Example demo_build_is_a_file :
  script (Demo.toolchain 0 0) [] Demo.build_is_a_file
  = (Raise (OSError EEXIST),
     mkWorld [] Demo.build_is_a_file [preparing; ensure_dir]).
Proof. vm_compute. reflexivity. Qed.

(** ** The claims *)

(** Decides a membership in a concrete trace by evaluation. *)
Ltac in_trace_by_eval :=
  match goal with
  | |- ?P => refine (@bool_decide_unpack P _ _); vm_compute; exact I
  end.

(** C1: in every execution the external invocations are, in this order,
    the creation of the output directory, the compile subprocess and the
    sign subprocess, the run stopping after the first or the second when
    that one fails; and no run in which the compile subprocess returned a
    non-zero status has a sign invocation. *)
Theorem C1_invocations_in_order sh args f0 :
  let tr := trace (script sh args f0).2 in
  ((∃ r1 r2, externals tr
             = [ensure_dir; EvRun compile_cmd r1; EvRun sign_cmd r2]
             ∧ returncode r1 = 0)
   ∨ (∃ r1, externals tr = [ensure_dir; EvRun compile_cmd r1]
            ∧ returncode r1 ≠ 0)
   ∨ (externals tr = [ensure_dir]
      ∧ ∃ e, makedirs BUILD_DIR true f0 = inl e))
  ∧ (∀ r1, EvRun compile_cmd r1 ∈ tr → returncode r1 ≠ 0 →
           ∀ r2, EvRun sign_cmd r2 ∉ tr).
Proof.
  intros tr. subst tr.
  destruct (script_outcome sh args f0)
    as [e Hmk|f1 r1 f2 Hmk Hc Hr1|f1 r1 f2 r2 f3 Hmk Hc Hr1 Hs Hr2
        |f1 r1 f2 r2 f3 Hmk Hc Hr1 Hs Hr2]; simpl.
  - split; [right; right; eauto|].
    intros r1 Hin. trace_cases Hin.
  - split; [right; left; eauto|].
    intros r1' _ _ r2 Hin. trace_cases Hin.
  - split; [left; eauto|].
    intros r1' Hin Hne r2' _. trace_cases Hin.
    injection Hin as ->. by destruct Hne.
  - split; [left; eauto|].
    intros r1' Hin Hne r2' _. trace_cases Hin.
    injection Hin as ->. by destruct Hne.
Qed.

(** With a compiler that exits with status 1, the signer is not run. *)
Lemma C1_invocations_in_order_witness :
  EvRun sign_cmd (mkCompleted 0 [] (lit "error: no identity found"))
  ∉ trace (script (Demo.toolchain 1 0) [] Demo.empty_dir).2.
Proof.
  apply (proj2 (C1_invocations_in_order (Demo.toolchain 1 0) [] Demo.empty_dir)
           (mkCompleted 1 (lit " compiled" ++ nl) (lit "error: no such file"))).
  - in_trace_by_eval.
  - discriminate.
Defined.







(** C4: when the compile subprocess returned zero and the sign subprocess
    did not, the run ends by [exit(1)], none of the lines of the success
    report is printed, and the script does nothing to the filesystem after
    the signer: its only invocations are the three steps, and the
    filesystem it leaves is the one the signer left, whatever the compile
    step wrote still in it. *)
Theorem C4_sign_failure sh args f0 r1 r2 :
  let run := script sh args f0 in
  EvRun compile_cmd r1 ∈ trace run.2 → EvRun sign_cmd r2 ∈ trace run.2 →
  returncode r1 = 0 → returncode r2 ≠ 0 →
  run.1 = Raise (SystemExit 1) ∧ exit_status run.1 = 1
  ∧ (∀ s, s ∈ success_report → say s ∉ trace run.2)
  ∧ externals (trace run.2)
    = [ensure_dir; EvRun compile_cmd r1; EvRun sign_cmd r2]
  ∧ ∃ f1, makedirs BUILD_DIR true f0 = inr f1
          ∧ fs run.2 = (sh sign_cmd (sh compile_cmd f1).2).2.
Proof.
  intros run. subst run.
  destruct (script_outcome sh args f0)
    as [e Hmk|f1 r1' f2 Hmk Hc Hr1|f1 r1' f2 r2' f3 Hmk Hc Hr1 Hs Hr2
        |f1 r1' f2 r2' f3 Hmk Hc Hr1 Hs Hr2]; simpl;
    intros Hin1 Hin2 Hz Hnz.
  - trace_cases Hin1.
  - trace_cases Hin2.
  - trace_cases Hin1. trace_cases Hin2.
    injection Hin1 as ->. injection Hin2 as ->.
    repeat split.
    + intros s Hin Hsay. trace_cases Hin; subst s; trace_cases Hsay.
    + exists f1. rewrite Hc. simpl. by rewrite Hs.
  - trace_cases Hin2. injection Hin2 as ->. by destruct Hnz.
Qed.

(** With a compiler that succeeds and a signer that fails, the binary
    the compiler wrote is still there at the end. *)
Lemma C4_sign_failure_witness :
  let run := script (Demo.toolchain 0 1) [] Demo.empty_dir in
  exit_status run.1 = 1
  ∧ (say (nl ++ lit "Helper tool prepared successfully!") ∉ trace run.2)
  ∧ nodes (fs run.2) !! output_path = Some File.
Proof.
  intros run.
  destruct (C4_sign_failure (Demo.toolchain 0 1) [] Demo.empty_dir
              (mkCompleted 0 (lit " compiled" ++ nl)
                 (lit "error: no such file"))
              (mkCompleted 1 [] (lit "error: no identity found")))
    as (_ & Hstatus & Hrep & _ & f1 & Hmk & Hfs).
  - in_trace_by_eval.
  - in_trace_by_eval.
  - reflexivity.
  - discriminate.
  - split; [exact Hstatus|]. split.
    + apply Hrep. apply elem_of_cons. by left.
    + subst run. rewrite Hfs.
      vm_compute in Hmk. injection Hmk as <-.
      vm_compute. reflexivity.
Defined.

(** C5: the command of the compile step is
    [swiftc LowDataHelper/main.swift -o build/com.lowdata.helper -O]:
    the compiler, the fixed source path, [-o] with the output directory
    joined to the helper identifier, and [-O]; it is the first subprocess
    of every run that gets past the directory step. *)
Theorem C5_compile_command sh args f0 :
  let tr := trace (script sh args f0).2 in
  compile_cmd
  = lit "swiftc LowDataHelper/main.swift -o build/com.lowdata.helper -O"
  ∧ compile_cmd
    = lit "swiftc" ++ lit " " ++ HELPER_SOURCE ++ lit " -o " ++ output_path
      ++ lit " -O"
  ∧ output_path = BUILD_DIR ++ lit "/" ++ HELPER_ID
  ∧ (∀ e, externals tr !! 1%nat = Some e → ∃ r, e = EvRun compile_cmd r)
  ∧ (∀ f1, makedirs BUILD_DIR true f0 = inr f1 →
           externals tr !! 1%nat
           = Some (EvRun compile_cmd (sh compile_cmd f1).1)).
Proof.
  intros tr. subst tr. do 3 (split; [reflexivity|]).
  destruct (script_outcome sh args f0)
    as [e Hmk|f1 r1 f2 Hmk Hc Hr1|f1 r1 f2 r2 f3 Hmk Hc Hr1 Hs Hr2
        |f1 r1 f2 r2 f3 Hmk Hc Hr1 Hs Hr2]; simpl; split;
    try (intros e' [= <-]; by eexists);
    try (intros f1' Hmk'; rewrite Hmk in Hmk'; injection Hmk' as <-;
         by rewrite Hc).
  intros f1 Hmk'. by rewrite Hmk in Hmk'.
Qed.

(** Started in an empty directory, the run reaches the compiler. *)
Lemma C5_compile_command_witness :
  externals (trace (script (Demo.toolchain 0 0) [] Demo.empty_dir).2) !! 1%nat
  = Some (EvRun compile_cmd
            (Demo.toolchain 0 0 compile_cmd Demo.with_build_dir).1).
Proof.
  apply (proj2 (proj2 (proj2 (proj2
           (C5_compile_command (Demo.toolchain 0 0) [] Demo.empty_dir))))
           Demo.with_build_dir).
  vm_compute. reflexivity.
Defined.

(** C6: the command of the sign step is [codesign --force --sign],
    the quoted identity [Developer ID Application: Konrad Michels] with the
    team identifier in parentheses, [--identifier] with the helper
    identifier, [--options runtime], and the path the compile step wrote
    to; it is the second subprocess of every run that has one. *)
Theorem C6_sign_command sh args f0 :
  let tr := trace (script sh args f0).2 in
  let identity :=
    lit "Developer ID Application: Konrad Michels (" ++ TEAM_ID ++ lit ")" in
  sign_cmd
  = lit "codesign --force --sign " ++ dq
    ++ lit "Developer ID Application: Konrad Michels (85QL287QYW)" ++ dq
    ++ lit " --identifier com.lowdata.helper --options runtime build/com.lowdata.helper"
  ∧ sign_cmd
    = lit "codesign" ++ lit " --force --sign " ++ dq ++ identity ++ dq
      ++ lit " --identifier " ++ HELPER_ID ++ lit " --options runtime "
      ++ output_path
  ∧ (∃ front, compile_cmd = front ++ output_path ++ lit " -O")
  ∧ (∀ e, externals tr !! 2%nat = Some e → ∃ r, e = EvRun sign_cmd r)
  ∧ (∀ f1, makedirs BUILD_DIR true f0 = inr f1 →
           returncode (sh compile_cmd f1).1 = 0 →
           externals tr !! 2%nat
           = Some (EvRun sign_cmd (sh sign_cmd (sh compile_cmd f1).2).1)).
Proof.
  intros tr identity. subst tr identity. do 2 (split; [reflexivity|]).
  split; [by exists (lit "swiftc LowDataHelper/main.swift -o ")|].
  destruct (script_outcome sh args f0)
    as [e Hmk|f1 r1 f2 Hmk Hc Hr1|f1 r1 f2 r2 f3 Hmk Hc Hr1 Hs Hr2
        |f1 r1 f2 r2 f3 Hmk Hc Hr1 Hs Hr2]; simpl; split;
    try (intros e' [= <-]; by eexists);
    try (intros f1' Hmk'; rewrite Hmk in Hmk'; injection Hmk' as <-;
         rewrite Hc; simpl; by rewrite ?Hs).
  intros f1 Hmk'. by rewrite Hmk in Hmk'.
Qed.

(** Started in an empty directory with a compiler that succeeds, the run
    reaches the signer. *)
Lemma C6_sign_command_witness :
  externals (trace (script (Demo.toolchain 0 0) [] Demo.empty_dir).2) !! 2%nat
  = Some (EvRun sign_cmd
            (Demo.toolchain 0 0 sign_cmd
               (Demo.toolchain 0 0 compile_cmd Demo.with_build_dir).2).1).
Proof.
  apply (proj2 (proj2 (proj2 (proj2
           (C6_sign_command (Demo.toolchain 0 0) [] Demo.empty_dir))))
           Demo.with_build_dir).
  - vm_compute. reflexivity.
  - reflexivity.
Defined.





(** ** The directory step *)

Lemma makedirs_existing name f :
  isdir name f = true → makedirs name true f = inr f.
Proof.
  unfold makedirs, mkdir, isdir.
  by destruct (nodes f !! name) as [[]|] eqn:Hn; simpl; rewrite ?Hn.
Qed.

Lemma makedirs_isdir name ok f f1 :
  makedirs name ok f = inr f1 → isdir name f1 = true.
Proof.
  unfold makedirs, mkdir. intros H.
  destruct (nodes f !! name) as [n|] eqn:Hn.
  - destruct (negb ok || negb (isdir name f)) eqn:Hg; [done|].
    injection H as <-. apply orb_false_elim in Hg as [_ Hg].
    by apply negb_false_iff in Hg.
  - destruct (cwd_writable f).
    + injection H as <-. unfold isdir. simpl. by rewrite lookup_insert_eq.
    + unfold isdir in H. rewrite Hn, orb_true_r in H. done.
Qed.

Lemma makedirs_idempotent name f f1 :
  makedirs name true f = inr f1 → makedirs name true f1 = inr f1.
Proof. intros H. eapply makedirs_existing, makedirs_isdir, H. Qed.

Lemma script_past_directory_step sh args f :
  isdir BUILD_DIR f = true →
  (∀ e, (script sh args f).1 ≠ Raise (OSError e))
  ∧ externals (trace (script sh args f).2) !! 1%nat
    = Some (EvRun compile_cmd (sh compile_cmd f).1).
Proof.
  intros Hdir%makedirs_existing.
  destruct (script_outcome sh args f)
    as [e Hmk|f1 r1 f2 Hmk Hc Hr1|f1 r1 f2 r2 f3 Hmk Hc Hr1 Hs Hr2
        |f1 r1 f2 r2 f3 Hmk Hc Hr1 Hs Hr2]; simpl;
    rewrite Hdir in Hmk; try done;
    injection Hmk as <-; by rewrite Hc.
Qed.

(** C8: the directory step is idempotent.  When the output directory
    exists, creating it succeeds and changes nothing; after a successful
    creation the directory exists, and creating it again succeeds and
    changes nothing; so a run started where the directory exists gets past
    the directory step to the compiler, on an unchanged filesystem; and
    of two runs in succession, where the tools of the first leave the
    directory in place and the first got past the step, so does the
    second. *)
Theorem C8_directory_step_idempotent :
  (∀ f, isdir BUILD_DIR f = true → makedirs BUILD_DIR true f = inr f)
  ∧ (∀ f f1, makedirs BUILD_DIR true f = inr f1 →
             isdir BUILD_DIR f1 = true ∧ makedirs BUILD_DIR true f1 = inr f1)
  ∧ (∀ sh args f,
       isdir BUILD_DIR f = true →
       (∀ e, (script sh args f).1 ≠ Raise (OSError e))
       ∧ externals (trace (script sh args f).2) !! 1%nat
         = Some (EvRun compile_cmd (sh compile_cmd f).1))
  ∧ (∀ sh1 sh2 args1 args2 f0,
       let run1 := script sh1 args1 f0 in
       let run2 := script sh2 args2 (fs run1.2) in
       (∀ cmd f, isdir BUILD_DIR f = true →
                 isdir BUILD_DIR (sh1 cmd f).2 = true) →
       (∀ e, run1.1 ≠ Raise (OSError e)) →
       isdir BUILD_DIR (fs run1.2) = true
       ∧ (∀ e, run2.1 ≠ Raise (OSError e))
       ∧ makedirs BUILD_DIR true (fs run1.2) = inr (fs run1.2)).
Proof.
  split; [apply makedirs_existing|].
  split; [intros f f1 H; split;
          [eapply makedirs_isdir, H | eapply makedirs_idempotent, H]|].
  split; [apply script_past_directory_step|].
  intros sh1 sh2 args1 args2 f0 run1 run2 Hkeep Hpast.
  assert (Hdir : isdir BUILD_DIR (fs run1.2) = true).
  { subst run2 run1.
    destruct (script_outcome sh1 args1 f0)
      as [e Hmk|f1 r1 f2 Hmk Hc Hr1|f1 r1 f2 r2 f3 Hmk Hc Hr1 Hs Hr2
          |f1 r1 f2 r2 f3 Hmk Hc Hr1 Hs Hr2]; simpl in *.
    - by destruct (Hpast e).
    - apply makedirs_isdir in Hmk.
      apply (Hkeep compile_cmd) in Hmk. by rewrite Hc in Hmk.
    - apply makedirs_isdir in Hmk.
      apply (Hkeep compile_cmd) in Hmk. rewrite Hc in Hmk. simpl in Hmk.
      apply (Hkeep sign_cmd) in Hmk. by rewrite Hs in Hmk.
    - apply makedirs_isdir in Hmk.
      apply (Hkeep compile_cmd) in Hmk. rewrite Hc in Hmk. simpl in Hmk.
      apply (Hkeep sign_cmd) in Hmk. by rewrite Hs in Hmk. }
  split; [exact Hdir|]. split.
  - apply script_past_directory_step, Hdir.
  - apply makedirs_existing, Hdir.
Qed.

(** Started where [build] is a directory already, the run reaches the
    compiler. *)
Lemma C8_directory_step_idempotent_witness :
  externals (trace (script (Demo.toolchain 0 0) [] Demo.with_build_dir).2)
    !! 1%nat
  = Some (EvRun compile_cmd
            (Demo.toolchain 0 0 compile_cmd Demo.with_build_dir).1).
Proof.
  apply (proj1 (proj2 (proj2 C8_directory_step_idempotent))
           (Demo.toolchain 0 0) [] Demo.with_build_dir).
  vm_compute. reflexivity.
Defined.

Example second_run_past_directory_step :
  let run1 := script (Demo.toolchain 0 0) [] Demo.empty_dir in
  let run2 := script (Demo.toolchain 0 0) [] (fs run1.2) in
  nodes (fs run1.2) !! BUILD_DIR = Some Dir
  ∧ run2.1 = Ok () ∧ fs run2.2 = fs run1.2.
Proof. vm_compute. repeat split. Qed.

(** ** Determinism *)




(** ** [run_command] *)





(** ** More on [strip] *)

Lemma lstrip_spaces l t :
  Forall (λ c, isspace c = true) l → lstrip (l ++ t) = lstrip t.
Proof. induction 1 as [|c l Hc _ IH]; simpl; [done|]. by rewrite Hc. Qed.

Lemma lstrip_keeps t :
  (∀ c, head t = Some c → isspace c = false) → lstrip t = t.
Proof.
  destruct t as [|c t]; simpl; [done|]. intros H. by rewrite (H c).
Qed.

Lemma rstrip_spaces t r :
  Forall (λ c, isspace c = true) r → rstrip (t ++ r) = rstrip t.
Proof.
  intros Hr. unfold rstrip. rewrite rev_app_distr, lstrip_spaces; [done|].
  by apply Forall_rev.
Qed.

Lemma rstrip_keeps t :
  (∀ c, last t = Some c → isspace c = false) → rstrip t = t.
Proof.
  intros H. unfold rstrip. rewrite lstrip_keeps; [apply rev_involutive|].
  intros c. rewrite head_rev_last. apply H.
Qed.

Lemma stripped_of_strip s t : stripped_of s t → strip s = t.
Proof.
  intros (l & r & -> & Hl & Hr & Hhead & Hlast). unfold strip.
  rewrite lstrip_spaces by done.
  destruct t as [|c t].
  - simpl. rewrite <- (app_nil_r r), lstrip_spaces by done. done.
  - rewrite lstrip_keeps.
    + rewrite rstrip_spaces by done. by apply rstrip_keeps.
    + intros c' [= <-]. by apply Hhead.
Qed.

(** X1: the result of [str.strip()] in [run_command] is the only text that
    is the captured output without a whitespace-only prefix and a
    whitespace-only suffix and that neither starts nor ends with
    whitespace. *)
Theorem strip_unique s t : stripped_of s t → strip s = t.
Proof. apply stripped_of_strip. Qed.

Lemma strip_unique_witness :
  strip ([32; 9] ++ lit "ok  done" ++ [13; 10])%N = lit "ok  done".
Proof.
  apply strip_unique. exists [32; 9]%N, [13; 10]%N.
  split; [reflexivity|].
  split; [by repeat constructor|]. split; [by repeat constructor|].
  split; intros c [= <-]; reflexivity.
Defined.

(** X2: stripping twice is stripping once. *)
Theorem strip_idempotent s : strip (strip s) = strip s.
Proof.
  apply stripped_of_strip.
  destruct (strip_stripped s) as (_ & _ & _ & _ & _ & Hhead & Hlast).
  exists [], []. by rewrite app_nil_r.
Qed.

(** X3: [run_command] returns the empty string exactly when the tool wrote
    nothing but whitespace to its standard output. *)
Theorem strip_empty_iff s :
  strip s = [] ↔ Forall (λ c, isspace c = true) s.
Proof.
  split.
  - intros H. destruct (strip_stripped s) as (l & r & Hs & Hl & Hr & _).
    rewrite H in Hs. rewrite Hs. by apply Forall_app.
  - intros H. apply stripped_of_strip. exists s, [].
    by rewrite app_nil_r.
Qed.

(** X4: [strip] returns its argument unchanged exactly when that neither
    starts nor ends with whitespace; whitespace inside is kept. *)
Theorem strip_unchanged_iff s :
  strip s = s
  ↔ (∀ c, head s = Some c → isspace c = false)
    ∧ (∀ c, last s = Some c → isspace c = false).
Proof.
  split.
  - intros H.
    destruct (strip_stripped s) as (_ & _ & _ & _ & _ & Hhead & Hlast).
    by rewrite H in Hhead, Hlast.
  - intros [Hhead Hlast]. apply stripped_of_strip. exists [], [].
    by rewrite app_nil_r.
Qed.

Lemma last_app_cons {A} (l : list A) a u : last (l ++ a :: u) = last (a :: u).
Proof.
  induction l as [|b l IH]; [done|].
  change ((b :: l) ++ a :: u) with (b :: (l ++ a :: u)).
  rewrite <- IH. by destruct (l ++ a :: u) eqn:E; [destruct l|].
Qed.

(** The order in which the two ends are stripped does not matter. *)
Lemma strip_right_then_left s : lstrip (rstrip s) = strip s.
Proof.
  symmetry. apply stripped_of_strip.
  destruct (rstrip_split s) as (r & Hs & Hr).
  destruct (lstrip_split (rstrip s)) as (l & Hu & Hl).
  exists l, r. split; [by rewrite app_assoc, <- Hu|].
  do 2 (split; [done|]). split; [apply lstrip_head|].
  intros c Hc. apply (rstrip_last s). rewrite Hu.
  destruct (lstrip (rstrip s)) as [|a u]; [done|].
  by rewrite last_app_cons.
Qed.

(** ** More on [run_command] and [main] *)









Lemma makedirs_frame name ok f f1 :
  makedirs name ok f = inr f1 →
  cwd_writable f1 = cwd_writable f
  ∧ ∀ p, p ≠ name → nodes f1 !! p = nodes f !! p.
Proof.
  unfold makedirs, mkdir. intros H.
  destruct (nodes f !! name) as [n|].
  - destruct (negb ok || negb (isdir name f)); [done|]. by injection H as <-.
  - destruct (cwd_writable f) eqn:Hw;
      [|destruct (negb ok || _); [done|by injection H as <-]].
    injection H as <-. simpl. split; [done|].
    intros p Hp. by apply lookup_insert_ne.
Qed.

(** X8: the script itself touches one entry of the filesystem, the output
    directory.  The filesystem at the end of a run is the one after the
    directory step, passed through the tools that ran; the directory step
    leaves every other path as it was; so with tools that change nothing,
    every path but [build] is at the end what it was at the start. *)
Theorem script_filesystem sh args f0 :
  let final := fs (script sh args f0).2 in
  final = match makedirs BUILD_DIR true f0 with
          | inl _ => f0
          | inr f1 =>
              let '(r1, f2) := sh compile_cmd f1 in
              if decide (returncode r1 = 0) then (sh sign_cmd f2).2 else f2
          end
  ∧ (∀ f1, makedirs BUILD_DIR true f0 = inr f1 →
           ∀ p, p ≠ BUILD_DIR → nodes f1 !! p = nodes f0 !! p)
  ∧ ((∀ cmd f, (sh cmd f).2 = f) →
     cwd_writable final = cwd_writable f0
     ∧ ∀ p, p ≠ BUILD_DIR → nodes final !! p = nodes f0 !! p).
Proof.
  intros final.
  assert (Hfinal : final
    = match makedirs BUILD_DIR true f0 with
      | inl _ => f0
      | inr f1 =>
          let '(r1, f2) := sh compile_cmd f1 in
          if decide (returncode r1 = 0) then (sh sign_cmd f2).2 else f2
      end).
  { subst final.
    destruct (script_outcome sh args f0)
      as [e Hmk|f1 r1 f2 Hmk Hc Hr1|f1 r1 f2 r2 f3 Hmk Hc Hr1 Hs Hr2
          |f1 r1 f2 r2 f3 Hmk Hc Hr1 Hs Hr2]; simpl;
      rewrite Hmk, ?Hc; try done;
      destruct (decide (returncode r1 = 0)); try done; by rewrite Hs. }
  split; [exact Hfinal|]. split.
  { intros f1 Hmk. by apply (makedirs_frame _ _ _ _ Hmk). }
  intros Hneutral. rewrite Hfinal. clear Hfinal.
  destruct (makedirs BUILD_DIR true f0) as [e|f1] eqn:Hmk; [done|].
  destruct (makedirs_frame _ _ _ _ Hmk) as [Hw Hn].
  pose proof (Hneutral compile_cmd f1) as H1.
  destruct (sh compile_cmd f1) as [r1 f2]. simpl in H1. subst f2.
  destruct (decide (returncode r1 = 0)); [|done].
  by rewrite Hneutral.
Qed.




Example tool_status_not_passed_on :
  let run := script (Demo.toolchain 127 0) [] Demo.empty_dir in
  results (trace run.2)
  = [mkCompleted 127 (lit " compiled" ++ nl) (lit "error: no such file")]
  ∧ exit_status run.1 = 1.
Proof. vm_compute. split; reflexivity. Qed.
